(** * The Kademlia protocol core of dht/protocol.py

    A shallow embedding of [KademliaProtocol]: the inbound [rpc_*] handlers,
    the authenticated delete, the replication run [transferKeyValues] and the
    contact management ([addToRouter], [handleCallResponse]).

    Python 2 [str] values are byte strings and are modelled as [string].
    The instance state ([self.router], [self.storage], ...) is threaded
    through a state monad that also carries raised exceptions, so that the
    [try ... except Exception] blocks of [rpc_delete] are written as such. *)

From Stdlib Require Import String Ascii List Bool Arith NArith Lia DecimalString.
Import ListNotations.
Local Open Scope string_scope.
Local Open Scope list_scope.

Set Implicit Arguments.

(** ** Values *)

(** Python's [s[n:]] on a byte string. *)
Fixpoint drop (n : nat) (s : string) : string :=
  match n, s with
  | O, _ => s
  | S _, EmptyString => EmptyString
  | S n', String _ s' => drop n' s'
  end.

(** An item of a reply list: a byte string, or a (key, value) tuple as
    handed out by the storage. *)
Inductive pyval : Type :=
| PStr (s : string)
| PTuple (k v : string).

Definition reply : Type := list pyval.

(** The exceptions the guarded operations can raise. *)
Inductive Exception : Type :=
| ValueError
| TypeError
| BadSignatureError
| DecodeError.

Inductive Result (A : Type) : Type :=
| Ok (a : A)
| Raise (e : Exception).
Arguments Raise {A} e.

(** protos.message *)
Inductive Command : Type :=
| PING | STUN | STORE | DELETE | FIND_NODE | FIND_VALUE | HOLE_PUNCH.

(** ** Node identity *)

(** dht.node.Node, as far as the protocol reads it. *)
Record Node : Type := mkNode {
  id : string;
  ip : string;
  port : N;
  signed_pubkey : string
}.

(** [Node(key)] for an identifier the constructor accepts: a point of the
    identifier space; only its id is ever read.  The failure of the
    constructor is [Node_init] below. *)
Definition Node_of (key : string) : Node := mkNode key "" 0 "".

(** Modelled from the spec: dht/node.py is not among the sources.  An
    identifier is a point of the identifier space, read as an unsigned
    integer; the constructor computes it as [long(id.encode('hex'), 16)],
    which has no digit to read when the identifier is empty and raises
    [ValueError]. *)
Definition Node_init (key : string) : Result Node :=
  match key with
  | EmptyString => Raise ValueError
  | String _ _ => Ok (Node_of key)
  end.

(** Modelled from the spec: dht/node.py is not among the sources.  An
    identifier read as an unsigned big-endian integer. *)
Fixpoint long_of (acc : N) (s : string) : N :=
  match s with
  | EmptyString => acc
  | String c s' => long_of (acc * 256 + N_of_ascii c) s'
  end.

Definition long_id (n : Node) : N := long_of 0 (id n).

(** Modelled from the spec: [Node.distanceTo] of dht/node.py, the bitwise XOR
    of the two identifiers as an unsigned integer. *)
Definition distanceTo (a b : Node) : N := N.lxor (long_id a) (long_id b).

(** protos.objects.Node, the wire descriptor of a peer. *)
Record NodeProto : Type := mkNodeProto {
  guid : string;
  signedPublicKey : string;
  nodeIp : string;
  nodePort : N
}.

Definition getProto (n : Node) : NodeProto :=
  mkNodeProto (id n) (signed_pubkey n) (ip n) (port n).

(** ** Collaborators

    The routing table, the storage, the signature primitive and the
    descriptor codec live outside dht/protocol.py; the protocol is written
    against their interfaces.  The routing table is taken as a value: what
    it may itself send through the protocol object it is built with (a
    ping to the head of a full bucket) is not part of the effects below,
    which record the requests dht/protocol.py issues. *)

Class RoutingTable (R : Type) : Type := {
  findNeighbors : R -> Node -> Node -> list Node;  (* target, exclude *)
  addContact : R -> Node -> R;
  removeContact : R -> Node -> R;
  isNewNode : R -> Node -> bool
}.

Class Storage (S : Type) : Type := {
  setitem : S -> string -> string * string -> S;       (* storage[keyword] = (key, value) *)
  getSpecific : S -> string -> string -> option string;
  delete : S -> string -> string -> S;
  get : S -> string -> option (list (string * string)); (* get(keyword, None) *)
  iterkeys : S -> list string;
  iteritems : S -> string -> list (string * string)
}.

(** nacl.signing.VerifyKey and dht.utils.digest.  [verify vk smessage sig]
    is [vk.verify(smessage, sig)], with [None] for the one-argument call. *)
Class Signing (VK : Type) : Type := {
  digest : string -> string;
  VerifyKey : string -> Result VK;
  verify : VK -> string -> option string -> Result string
}.

Class Codec : Type := {
  SerializeToString : NodeProto -> string;
  ParseFromString : string -> Result NodeProto
}.

(** ** Effects *)

(** A request handed to the transport: the address it goes to, the message
    type, its arguments, and the peer [handleCallResponse] is bound to. *)
Record Call : Type := mkCall {
  address : string * N;
  command : Command;
  args : list string;
  nodeToAsk : Node
}.

(** What a run leaves outside the instance: transport requests, and the
    batches built by [defer.gatherResults]. *)
Inductive Effect : Type :=
| Sent (c : Call)
| Gathered (ds : list Call).

Section ProtocolCore.
Context {R S : Type}.

(** The fields of a [KademliaProtocol] instance that the handlers read or
    write ([multiplexer], [db] and [log] are not among them), and the
    effects so far. *)
Record Protocol : Type := mkProtocol {
  ksize : nat;
  router : R;
  storage : S;
  sourceNode : Node;
  effects : list Effect
}.

Definition M (A : Type) : Type := Protocol -> Result A * Protocol.

Definition ret {A} (a : A) : M A := fun p => (Ok a, p).

Definition bind {A B} (m : M A) (k : A -> M B) : M B :=
  fun p => match m p with
           | (Ok a, p') => k a p'
           | (Raise e, p') => (Raise e, p')
           end.

(** [try: body  except Exception: handler] *)
Definition try_except {A} (body : M A) (handler : M A) : M A :=
  fun p => match body p with
           | (Ok a, p') => (Ok a, p')
           | (Raise _, p') => handler p'
           end.

(** An operation of a collaborator that may raise. *)
Definition lift {A} (r : Result A) : M A := fun p => (r, p).

Definition gets {A} (f : Protocol -> A) : M A := fun p => (Ok (f p), p).

Definition modify (f : Protocol -> Protocol) : M unit := fun p => (Ok tt, f p).

Definition exec {A} (m : M A) (p : Protocol) : Protocol := snd (m p).

Definition result_of {A} (m : M A) (p : Protocol) : Result A := fst (m p).

End ProtocolCore.

Arguments Protocol R S : clear implicits.
Arguments M R S A : clear implicits.

Declare Scope proto_scope.
Delimit Scope proto_scope with proto.
Notation "x <- m ;; k" := (bind m (fun x => k))
  (at level 61, m at next level, right associativity) : proto_scope.
Notation "m ;; k" := (bind m (fun _ => k))
  (at level 61, right associativity) : proto_scope.

(** ** The protocol *)

Section Handlers.
Context {R S VK : Type}.
Context {RT : RoutingTable R} {ST : Storage S} {SG : Signing VK} {CD : Codec}.
Local Open Scope proto_scope.

Definition set_router (r : R) (p : Protocol R S) : Protocol R S :=
  mkProtocol (ksize p) r (storage p) (sourceNode p) (effects p).

Definition set_storage (s : S) (p : Protocol R S) : Protocol R S :=
  mkProtocol (ksize p) (router p) s (sourceNode p) (effects p).

Definition emit (e : Effect) (p : Protocol R S) : Protocol R S :=
  mkProtocol (ksize p) (router p) (storage p) (sourceNode p) (effects p ++ [e]).

(** A loop whose body appends to one list of results. *)
Fixpoint for_each {A B} (xs : list A) (body : A -> M R S (list B)) : M R S (list B) :=
  match xs with
  | [] => ret []
  | x :: xs' =>
      ds <- body x ;;
      ds' <- for_each xs' body ;;
      ret (ds ++ ds')
  end.

(** The request primitive of the transport with [handleCallResponse]
    attached for [nodeToAsk]; the deferred is the pending call. *)
Definition call (nodeToAsk : Node) (c : Command) (a : list string) : M R S Call :=
  let address := (ip nodeToAsk, port nodeToAsk) in
  let d := mkCall address c a nodeToAsk in
  modify (emit (Sent d)) ;;
  ret d.

Definition callFindNode (nodeToAsk nodeToFind : Node) : M R S Call :=
  call nodeToAsk FIND_NODE [id nodeToFind].

Definition callFindValue (nodeToAsk nodeToFind : Node) : M R S Call :=
  call nodeToAsk FIND_VALUE [id nodeToFind].

Definition callPing (nodeToAsk : Node) : M R S Call :=
  call nodeToAsk PING [].

Definition callStore (nodeToAsk : Node) (keyword key value : string) : M R S Call :=
  call nodeToAsk STORE [keyword; key; value].

Definition callDelete (nodeToAsk : Node) (keyword key signature : string) : M R S Call :=
  call nodeToAsk DELETE [keyword; key; signature].

Definition gatherResults (ds : list Call) : M R S (list Call) :=
  modify (emit (Gathered ds)) ;;
  ret ds.

(** The condition under which [transferKeyValues] pushes a keyword.
    [newNodeClose] and [thisNodeClosest] are only computed, and only
    read, when [neighbors] is not empty. *)
Definition replicates (k : nat) (source node keynode : Node)
           (neighbors : list Node) : bool :=
  match neighbors with
  | [] => true
  | first :: _ =>
      let newNodeClose :=
        (distanceTo node keynode <? distanceTo (last neighbors first) keynode)%N in
      let thisNodeClosest :=
        (distanceTo source keynode <? distanceTo first keynode)%N in
      (newNodeClose && thisNodeClosest)
      || (thisNodeClosest && (List.length neighbors <? k)%nat)
  end.

(** The body of the loop over [self.storage.iterkeys()]. *)
Definition transferKeyword (node : Node) (keyword : string) : M R S (list Call) :=
  let keynode := Node_of keyword in
  neighbors <- gets (fun p => findNeighbors (router p) keynode node) ;;
  k <- gets ksize ;;
  source <- gets sourceNode ;;
  if replicates k source node keynode neighbors then
    items <- gets (fun p => iteritems (storage p) keyword) ;;
    for_each items (fun kv => d <- callStore node keyword (fst kv) (snd kv) ;; ret [d])
  else ret [].

Definition transferKeyValues (node : Node) : M R S (list Call) :=
  keywords <- gets (fun p => iterkeys (storage p)) ;;
  ds <- for_each keywords (transferKeyword node) ;;
  gatherResults ds.

Definition handleCallResponse (result : bool * list string) (node : Node)
  : M R S (bool * list string) :=
  (if fst result then
     new <- gets (fun p => isNewNode (router p) node) ;;
     (if new then transferKeyValues node ;; ret tt else ret tt) ;;
     modify (fun p => set_router (addContact (router p) node) p)
   else
     modify (fun p => set_router (removeContact (router p) node) p)) ;;
  ret result.

Definition addToRouter (node : Node) : M R S unit :=
  new <- gets (fun p => isNewNode (router p) node) ;;
  (if new then transferKeyValues node ;; ret tt else ret tt) ;;
  modify (fun p => set_router (addContact (router p) node) p).

(** Python's [str] of a port number. *)
Definition str (n : N) : string := NilZero.string_of_uint (N.to_uint n).

Definition rpc_stun (sender : Node) : M R S reply :=
  addToRouter sender ;;
  ret [PStr (ip sender); PStr (str (port sender))].

Definition rpc_ping (sender : Node) : M R S reply :=
  addToRouter sender ;;
  source <- gets sourceNode ;;
  ret [PStr (SerializeToString (getProto source))].

Definition rpc_store (sender : Node) (keyword key value : string) : M R S reply :=
  addToRouter sender ;;
  if ((String.length keyword =? 20) && (String.length key <=? 33)
      && (String.length value <=? 1800))%nat
  then
    modify (fun p => set_storage (setitem (storage p) keyword (key, value)) p) ;;
    ret [PStr "True"]
  else ret [PStr "False"].

(** The inner block of both delete paths: build the key, verify, delete. *)
Definition rpc_delete (sender : Node) (keyword key signature : string) : M R S reply :=
  addToRouter sender ;;
  value <- gets (fun p => getSpecific (storage p) keyword key) ;;
  match value with
  | Some value =>
      if String.eqb keyword (digest (id sender)) then
        try_except
          (verify_key <- lift (VerifyKey (drop 64 (signed_pubkey sender))) ;;
           lift (verify verify_key key (Some signature)) ;;
           modify (fun p => set_storage (delete (storage p) keyword key) p) ;;
           ret [PStr "True"])
          (ret [PStr "False"])
      else
        returned <-
          try_except
            (node <- lift (ParseFromString value) ;;
             let pubkey := drop 64 (signedPublicKey node) in
             r <- try_except
                    (verify_key <- lift (VerifyKey pubkey) ;;
                     lift (verify verify_key (signature ++ key)%string None) ;;
                     modify (fun p => set_storage (delete (storage p) keyword key) p) ;;
                     ret [PStr "True"])
                    (ret [PStr "False"]) ;;
             ret (Some r))
            (ret None) ;;           (* except Exception: pass *)
        match returned with
        | Some r => ret r
        | None => ret [PStr "False"]
        end
  | None => ret [PStr "False"]
  end.

Definition rpc_find_node (sender : Node) (key : string) : M R S reply :=
  addToRouter sender ;;
  let node := Node_of key in
  nodeList <- gets (fun p => findNeighbors (router p) node sender) ;;
  ret (map (fun n => PStr (SerializeToString (getProto n))) nodeList).

Definition rpc_find_value (sender : Node) (keyword : string) : M R S reply :=
  addToRouter sender ;;
  value <- gets (fun p => get (storage p) keyword) ;;
  match value with
  | None => rpc_find_node sender keyword
  | Some value =>
      ret (PStr "value" :: map (fun kv => PTuple (fst kv) (snd kv)) value)
  end.

Definition handled_commands : list Command :=
  [PING; STUN; STORE; DELETE; FIND_NODE; FIND_VALUE; HOLE_PUNCH].

(** An inbound message with its arguments, and its delivery to the
    handler of its type. *)
Inductive Request : Type :=
| ReqPing
| ReqStun
| ReqStore (keyword key value : string)
| ReqDelete (keyword key signature : string)
| ReqFindNode (key : string)
| ReqFindValue (keyword : string).

Definition handle (sender : Node) (req : Request) : M R S reply :=
  match req with
  | ReqPing => rpc_ping sender
  | ReqStun => rpc_stun sender
  | ReqStore keyword key value => rpc_store sender keyword key value
  | ReqDelete keyword key signature => rpc_delete sender keyword key signature
  | ReqFindNode key => rpc_find_node sender key
  | ReqFindValue keyword => rpc_find_value sender keyword
  end.

End Handlers.

(** ** A routing table and a storage to run the protocol on *)

Module Flat.

(** Modelled from the spec: dht/routing.py is not among the sources.  The
    routing table as the contract of its interface describes it: the known
    peers, each at most once; [findNeighbors] gives up to k of them by
    ascending XOR distance to the target, leaving out the excluded peer;
    [addContact] makes a peer known and refreshes its position;
    [removeContact] forgets it; [isNewNode] tells whether it is unknown.
    Buckets and their splitting are left out. *)
Record Router : Type := mkRouter {
  rt_ksize : nat;
  rt_node : Node;
  contacts : list Node
}.

Definition same_id (a b : Node) : bool := String.eqb (id a) (id b).

Fixpoint insert_by_distance (target n : Node) (l : list Node) : list Node :=
  match l with
  | [] => [n]
  | m :: l' =>
      if (distanceTo n target <=? distanceTo m target)%N then n :: l
      else m :: insert_by_distance target n l'
  end.

Definition sort_by_distance (target : Node) (l : list Node) : list Node :=
  fold_right (insert_by_distance target) [] l.

Definition others (n : Node) (l : list Node) : list Node :=
  filter (fun m => negb (same_id n m)) l.

Definition find_neighbors (r : Router) (target exclude : Node) : list Node :=
  firstn (rt_ksize r) (sort_by_distance target (others exclude (contacts r))).

Definition add_contact (r : Router) (n : Node) : Router :=
  mkRouter (rt_ksize r) (rt_node r) (others n (contacts r) ++ [n]).

Definition remove_contact (r : Router) (n : Node) : Router :=
  mkRouter (rt_ksize r) (rt_node r) (others n (contacts r)).

Definition is_new_node (r : Router) (n : Node) : bool :=
  negb (existsb (same_id n) (contacts r)).

#[global] Instance routing : RoutingTable Router := {
  findNeighbors := find_neighbors;
  addContact := add_contact;
  removeContact := remove_contact;
  isNewNode := is_new_node
}.

(** Modelled from the spec: dht/storage.py is not among the sources.  A
    keyword-indexed multi-map of (key, value) pairs, the last write winning
    per (keyword, key); a keyword is listed while it holds a record. *)
Definition Store : Type := list (string * list (string * string)).

Fixpoint upsert (key value : string) (items : list (string * string))
  : list (string * string) :=
  match items with
  | [] => [(key, value)]
  | (k, v) :: items' =>
      if String.eqb k key then (key, value) :: items'
      else (k, v) :: upsert key value items'
  end.

Fixpoint store_set (st : Store) (keyword : string) (kv : string * string) : Store :=
  match st with
  | [] => [(keyword, [kv])]
  | (kw, items) :: st' =>
      if String.eqb kw keyword then (kw, upsert (fst kv) (snd kv) items) :: st'
      else (kw, items) :: store_set st' keyword kv
  end.

Fixpoint store_get (st : Store) (keyword : string) : option (list (string * string)) :=
  match st with
  | [] => None
  | (kw, items) :: st' =>
      if String.eqb kw keyword then Some items else store_get st' keyword
  end.

Fixpoint lookup (key : string) (items : list (string * string)) : option string :=
  match items with
  | [] => None
  | (k, v) :: items' => if String.eqb k key then Some v else lookup key items'
  end.

Definition store_get_specific (st : Store) (keyword key : string) : option string :=
  match store_get st keyword with
  | Some items => lookup key items
  | None => None
  end.

Fixpoint store_delete (st : Store) (keyword key : string) : Store :=
  match st with
  | [] => []
  | (kw, items) :: st' =>
      if String.eqb kw keyword then
        match filter (fun kv => negb (String.eqb (fst kv) key)) items with
        | [] => st'
        | items' => (kw, items') :: st'
        end
      else (kw, items) :: store_delete st' keyword key
  end.

#[global] Instance store : Storage Store := {
  setitem := store_set;
  getSpecific := store_get_specific;
  delete := store_delete;
  get := store_get;
  iterkeys := fun st => map fst st;
  iteritems := fun st keyword =>
                 match store_get st keyword with
                 | Some items => items
                 | None => []
                 end
}.

End Flat.

(** ** Stand-ins for the signature primitive and the descriptor codec

    Small, computable instances of the two interfaces, used to run the
    handlers on concrete requests.  A verification key is any 32 bytes; a
    signed message is accepted under a key when it is at least 64 bytes long
    and opens with the key. *)

Module Toy.

Fixpoint bytes (n : nat) (c : ascii) : string :=
  match n with
  | O => EmptyString
  | S n' => String c (bytes n' c)
  end.

Definition toy_verify (vk smessage : string) (signature : option string)
  : Result string :=
  let sm := match signature with
            | Some sig => (sig ++ smessage)%string
            | None => smessage
            end in
  if (64 <=? String.length sm)%nat && String.prefix vk sm
  then Ok (drop 64 sm) else Raise BadSignatureError.

#[global] Instance signing : Signing string := {
  digest := fun s => s;
  VerifyKey := fun b => if (String.length b =? 32)%nat then Ok b
                        else Raise ValueError;
  verify := toy_verify
}.

#[global] Instance codec : Codec := {
  SerializeToString := fun np => (guid np ++ signedPublicKey np)%string;
  ParseFromString := fun s =>
    if (String.length s <? 20)%nat then Raise DecodeError
    else Ok (mkNodeProto (substring 0 20 s) (drop 20 s) "" 0)
}.

(** A 20-byte identifier ending in byte [n]. *)
Definition ident (n : nat) : string :=
  (bytes 19 zero ++ String (ascii_of_nat n) "")%string.

(** The key material of peer [n]: a 64-byte certificate, then the key. *)
Definition key_of (n : nat) : string := bytes 32 (ascii_of_nat n).

Definition pubkey_blob (n : nat) : string :=
  (bytes 64 "c" ++ key_of n)%string.

(** A signature by peer [n]. *)
Definition sign (n : nat) : string := (key_of n ++ key_of n)%string.

Definition peer (n : nat) : Node :=
  mkNode (ident n) "10.0.0.1" (8000 + N.of_nat n) (pubkey_blob n).

(** The serialized descriptor of peer [n]. *)
Definition descriptor (n : nat) : string :=
  SerializeToString (getProto (peer n)).

(** The instance of peer 1, with k = 20, knowing nobody and holding
    nothing. *)
Definition node0 : Protocol Flat.Router Flat.Store :=
  mkProtocol 20 (Flat.mkRouter 20 (peer 1) []) [] (peer 1) [].

Definition holding (keyword key value : string)
           (p : Protocol Flat.Router Flat.Store) : Protocol Flat.Router Flat.Store :=
  set_storage (setitem (storage p) keyword (key, value)) p.

Definition knowing (n : nat) (p : Protocol Flat.Router Flat.Store)
  : Protocol Flat.Router Flat.Store :=
  set_router (addContact (router p) (peer n)) p.

(** Holds a pointer record to peer 4 under keyword 9. *)
Definition pointer_state : Protocol Flat.Router Flat.Store :=
  holding (ident 9) "k" (descriptor 4) node0.

(** Holds a record of peer 2 under the digest of its identifier. *)
Definition own_state : Protocol Flat.Router Flat.Store :=
  holding (ident 2) "k" "v" node0.

(** Knows peer 4 and holds a record under keyword 0. *)
Definition replica_state : Protocol Flat.Router Flat.Store :=
  knowing 4 (holding (ident 0) "k" "v" node0).

End Toy.

(** ** What a run does, written without the monad *)

Section Views.
Context {R S VK : Type}.
Context {RT : RoutingTable R} {ST : Storage S} {SG : Signing VK} {CD : Codec}.

Definition add_effects (es : list Effect) (p : Protocol R S) : Protocol R S :=
  mkProtocol (ksize p) (router p) (storage p) (sourceNode p) (effects p ++ es).

(** The STORE request [callStore] hands to the transport. *)
Definition store_call (node : Node) (keyword : string) (kv : string * string) : Call :=
  mkCall (ip node, port node) STORE [keyword; fst kv; snd kv] node.

(** The neighbours [transferKeyValues] looks at for a keyword. *)
Definition neighbors_of (p : Protocol R S) (node : Node) (keyword : string) : list Node :=
  findNeighbors (router p) (Node_of keyword) node.

Definition pushes (p : Protocol R S) (node : Node) (keyword : string) : bool :=
  replicates (ksize p) (sourceNode p) node (Node_of keyword) (neighbors_of p node keyword).

(** The STORE requests of one keyword. *)
Definition keyword_calls (p : Protocol R S) (node : Node) (keyword : string) : list Call :=
  if pushes p node keyword
  then map (store_call node keyword) (iteritems (storage p) keyword)
  else [].

Definition transfer_calls (p : Protocol R S) (node : Node) : list Call :=
  flat_map (keyword_calls p node) (iterkeys (storage p)).

(** The effects of one replication run. *)
Definition replication (p : Protocol R S) (node : Node) : list Effect :=
  map Sent (transfer_calls p node) ++ [Gathered (transfer_calls p node)].

(** The instance after [addToRouter node]. *)
Definition contacted (p : Protocol R S) (node : Node) : Protocol R S :=
  let p' := if isNewNode (router p) node
            then add_effects (replication p node) p else p in
  set_router (addContact (router p') node) p'.

(** The number of replication runs recorded in a list of effects. *)
Fixpoint runs (es : list Effect) : nat :=
  match es with
  | [] => 0
  | Gathered _ :: es' => Datatypes.S (runs es')
  | Sent _ :: es' => runs es'
  end.

(** [signature] is a valid signature over the message [key] under the
    verification key held in the sender's signed-public-key blob. *)
Definition self_signed (sender : Node) (key signature : string) : Prop :=
  exists vk m,
    VerifyKey (drop 64 (signed_pubkey sender)) = Ok vk
    /\ verify vk key (Some signature) = Ok m.

(** [signature] followed by [key] is a valid signed message under the
    verification key held in the peer descriptor that [value] parses to. *)
Definition pointer_signed (value key signature : string) : Prop :=
  exists node vk m,
    ParseFromString value = Ok node
    /\ VerifyKey (drop 64 (signedPublicKey node)) = Ok vk
    /\ verify vk (signature ++ key)%string None = Ok m.

(** The proof of authorship a DELETE has to carry. *)
Definition authorised (p : Protocol R S) (sender : Node)
           (keyword key signature : string) : Prop :=
  exists value,
    getSpecific (storage p) keyword key = Some value
    /\ ((keyword = digest (id sender) /\ self_signed sender key signature)
        \/ (keyword <> digest (id sender) /\ pointer_signed value key signature)).

(** The ways a DELETE can fail: no record at (keyword, key); the stored
    value of a pointer record does not parse; the key material is
    malformed; the signature does not verify. *)
Inductive delete_fault (p : Protocol R S) (sender : Node)
          (keyword key signature : string) : Prop :=
| record_absent :
    getSpecific (storage p) keyword key = None ->
    delete_fault p sender keyword key signature
| own_key_malformed value e :
    getSpecific (storage p) keyword key = Some value ->
    keyword = digest (id sender) ->
    VerifyKey (drop 64 (signed_pubkey sender)) = Raise e ->
    delete_fault p sender keyword key signature
| own_signature_mismatch value vk e :
    getSpecific (storage p) keyword key = Some value ->
    keyword = digest (id sender) ->
    VerifyKey (drop 64 (signed_pubkey sender)) = Ok vk ->
    verify vk key (Some signature) = Raise e ->
    delete_fault p sender keyword key signature
| pointer_parse_failure value e :
    getSpecific (storage p) keyword key = Some value ->
    keyword <> digest (id sender) ->
    ParseFromString value = Raise e ->
    delete_fault p sender keyword key signature
| pointer_key_malformed value node e :
    getSpecific (storage p) keyword key = Some value ->
    keyword <> digest (id sender) ->
    ParseFromString value = Ok node ->
    VerifyKey (drop 64 (signedPublicKey node)) = Raise e ->
    delete_fault p sender keyword key signature
| pointer_signature_mismatch value node vk e :
    getSpecific (storage p) keyword key = Some value ->
    keyword <> digest (id sender) ->
    ParseFromString value = Ok node ->
    VerifyKey (drop 64 (signedPublicKey node)) = Ok vk ->
    verify vk (signature ++ key)%string None = Raise e ->
    delete_fault p sender keyword key signature.

(** Modelled from the spec: the contract of the routing table that contact
    management relies on.  A peer that was added is known afterwards, a
    peer that was removed is not. *)
Definition router_contract : Prop :=
  (forall (r : R) (n : Node), isNewNode (addContact r n) n = false)
  /\ (forall (r : R) (n : Node), isNewNode (removeContact r n) n = true).

(** Adding a peer that is already known leaves the answers to neighbour
    queries that exclude this peer as they were. *)
Definition readd_keeps_neighbors : Prop :=
  forall (r : R) (n target : Node),
    findNeighbors (addContact (addContact r n) n) target n
    = findNeighbors (addContact r n) target n.

(** The admission test of STORE. *)
Definition admissible (keyword key value : string) : Prop :=
  String.length keyword = 20 /\ String.length key <= 33
  /\ String.length value <= 1800.

(** The replication rule in the words of the component design: no
    neighbours; or the new peer is closer than the farthest neighbour and
    this node is closer than the nearest; or this node is the nearest
    entry of the neighbour list and the list is shorter than k. *)
Definition spec_replicates (k : nat) (source node keynode : Node)
           (neighbors : list Node) : Prop :=
  neighbors = []
  \/ (exists first,
         hd_error neighbors = Some first
         /\ (distanceTo node keynode < distanceTo (last neighbors first) keynode)%N
         /\ (distanceTo source keynode < distanceTo first keynode)%N)
  \/ (exists first,
         hd_error neighbors = Some first
         /\ id first = id source
         /\ List.length neighbors < k).

(** The rule the code applies: the third case asks that this node be
    closer to the keyword than the nearest neighbour. *)
Definition code_replicates (k : nat) (source node keynode : Node)
           (neighbors : list Node) : Prop :=
  neighbors = []
  \/ (exists first,
         hd_error neighbors = Some first
         /\ (distanceTo node keynode < distanceTo (last neighbors first) keynode)%N
         /\ (distanceTo source keynode < distanceTo first keynode)%N)
  \/ (exists first,
         hd_error neighbors = Some first
         /\ (distanceTo source keynode < distanceTo first keynode)%N
         /\ List.length neighbors < k).

(** The self-delete property as the testable properties word it: for a
    DELETE whose keyword is the digest of the sender's identifier, success
    exactly when the signature verifies under the sender's own key. *)
Definition self_delete_claim (p : Protocol R S) (sender : Node)
           (keyword key signature : string) : Prop :=
  keyword = digest (id sender) ->
  (result_of (rpc_delete sender keyword key signature) p = Ok [PStr "True"]
   <-> self_signed sender key signature).

(** The replication property as the component design words it. *)
Definition replication_claim (k : nat) (source node keynode : Node)
           (neighbors : list Node) : Prop :=
  replicates k source node keynode neighbors = true
  <-> spec_replicates k source node keynode neighbors.

End Views.

(** ** The lookups with the failure of [Node(key)] kept *)

Section StrictLookups.
Context {R S VK : Type}.
Context {RT : RoutingTable R} {ST : Storage S} {SG : Signing VK} {CD : Codec}.
Local Open Scope proto_scope.

(** [rpc_find_node], line by line; [Node(key)] stands outside any [try]. *)
Definition rpc_find_node_strict (sender : Node) (key : string) : M R S reply :=
  addToRouter sender ;;
  node <- lift (Node_init key) ;;
  nodeList <- gets (fun p => findNeighbors (router p) node sender) ;;
  ret (map (fun n => PStr (SerializeToString (getProto n))) nodeList).

Definition rpc_find_value_strict (sender : Node) (keyword : string) : M R S reply :=
  addToRouter sender ;;
  value <- gets (fun p => get (storage p) keyword) ;;
  match value with
  | None => rpc_find_node_strict sender keyword
  | Some value =>
      ret (PStr "value" :: map (fun kv => PTuple (fst kv) (snd kv)) value)
  end.

Definition handle_strict (sender : Node) (req : Request) : M R S reply :=
  match req with
  | ReqFindNode key => rpc_find_node_strict sender key
  | ReqFindValue keyword => rpc_find_value_strict sender keyword
  | _ => handle sender req
  end.

End StrictLookups.

(** ** Refresh identifiers *)

(** [self.router.getLonelyBuckets()], each bucket given by its [range]. *)
Class Buckets (R : Type) : Type := {
  getLonelyBuckets : R -> list (N * N)
}.

(** [random.randint(a, b)] on the state [G] of the generator. *)
Class Random (G : Type) : Type := {
  randint : G -> N -> N -> Result N * G
}.

Section Refresh.
Context {R S G : Type} {BK : Buckets R} {RD : Random G}.

(** The loop of [getRefreshIDs]: one draw per bucket, appended in order. *)
Fixpoint refresh_ids (buckets : list (N * N)) (g : G) : Result (list N) * G :=
  match buckets with
  | [] => (Ok [], g)
  | bucket :: rest =>
      match randint g (fst bucket) (snd bucket) with
      | (Ok x, g') =>
          match refresh_ids rest g' with
          | (Ok ids, g'') => (Ok (x :: ids), g'')
          | (Raise e, g'') => (Raise e, g'')
          end
      | (Raise e, g') => (Raise e, g')
      end
  end.

Definition getRefreshIDs (p : Protocol R S) (g : G) : Result (list N) * G :=
  refresh_ids (getLonelyBuckets (router p)) g.

(** What [random.randint] promises: a number of the closed range, and
    [ValueError] when the range is empty. *)
Definition randint_contract : Prop :=
  forall (g : G) (a b : N),
    ((a <= b)%N ->
     exists x g', randint g a b = (Ok x, g') /\ (a <= x <= b)%N)
    /\ ((b < a)%N -> exists g', randint g a b = (Raise ValueError, g')).

End Refresh.

(** ** Shapes of requests and effects *)

(** A STORE request for [node]: sent to its address, bound to it, with a
    keyword, a key and a value. *)
Definition store_to (node : Node) (c : Call) : Prop :=
  command c = STORE /\ nodeToAsk c = node
  /\ address c = (ip node, port node) /\ List.length (args c) = 3.

Definition replication_to (node : Node) (e : Effect) : Prop :=
  match e with
  | Sent c => store_to node c
  | Gathered ds => Forall (store_to node) ds
  end.

(** The requests that change the storage. *)
Definition writes (req : Request) : bool :=
  match req with
  | ReqStore _ _ _ | ReqDelete _ _ _ => true
  | _ => false
  end.

Module Lab.

(** A generator that counts its draws. *)
#[global] Instance counter : Random N := {
  randint := fun g a b =>
    if (b <? a)%N then (Raise ValueError, g)
    else (Ok (a + g mod (b - a + 1))%N, (g + 1)%N)
}.

(** A routing table seen only through its lonely buckets. *)
#[global] Instance ranges : Buckets (list (N * N)) := {
  getLonelyBuckets := fun r => r
}.

Definition lonely : Protocol (list (N * N)) Flat.Store :=
  mkProtocol 20 [(0, 7); (8, 15); (16, 16)]%N [] (Toy.peer 1) [].

(** Knows nobody and holds two records under keyword 0 and one under 9. *)
Definition alone : Protocol Flat.Router Flat.Store :=
  Toy.holding (Toy.ident 9) "c" "z"
    (Toy.holding (Toy.ident 0) "b" "y"
       (Toy.holding (Toy.ident 0) "a" "x" Toy.node0)).

(** Holds, under the digest of peer 2, a record whose value is the
    descriptor of peer 4. *)
Definition own_pointer : Protocol Flat.Router Flat.Store :=
  Toy.holding (Toy.ident 2) "k" (Toy.descriptor 4) Toy.node0.

End Lab.

(** * Properties *)

Section Facts.
Context {R S VK : Type}.
Context {RT : RoutingTable R} {ST : Storage S} {SG : Signing VK} {CD : Codec}.
Local Open Scope proto_scope.

Implicit Types (p : Protocol R S) (node sender : Node).

Ltac run := unfold bind, ret, gets, modify, lift, try_except; simpl.

Lemma add_effects_nil p : add_effects [] p = p.
Proof. destruct p; unfold add_effects; simpl. now rewrite app_nil_r. Qed.

Lemma add_effects_app es es' p :
  add_effects es' (add_effects es p) = add_effects (es ++ es') p.
Proof. unfold add_effects; simpl. now rewrite app_assoc. Qed.

Lemma emit_add_effects e p : emit e p = add_effects [e] p.
Proof. reflexivity. Qed.

Lemma keyword_calls_add_effects es p node keyword :
  keyword_calls (add_effects es p) node keyword = keyword_calls p node keyword.
Proof. reflexivity. Qed.

(** The inner loop: one STORE request per pair, in order. *)
Lemma store_loop_run node keyword (items : list (string * string)) p :
  for_each items
    (fun kv => d <- callStore node keyword (fst kv) (snd kv) ;; ret [d]) p
  = (Ok (map (store_call node keyword) items),
     add_effects (map Sent (map (store_call node keyword) items)) p).
Proof.
  revert p. induction items as [|kv items IH]; intro p.
  - simpl. unfold ret. now rewrite add_effects_nil.
  - simpl. unfold callStore, call. run. rewrite IH.
    rewrite emit_add_effects, add_effects_app. reflexivity.
Qed.

Lemma transferKeyword_run node keyword p :
  transferKeyword node keyword p
  = (Ok (keyword_calls p node keyword),
     add_effects (map Sent (keyword_calls p node keyword)) p).
Proof.
  unfold transferKeyword, keyword_calls, pushes, neighbors_of. run.
  destruct (replicates _ _ _ _ _).
  - apply store_loop_run.
  - simpl. now rewrite add_effects_nil.
Qed.

Lemma keyword_loop_run node (keywords : list string) p :
  for_each keywords (transferKeyword node) p
  = (Ok (flat_map (keyword_calls p node) keywords),
     add_effects (map Sent (flat_map (keyword_calls p node) keywords)) p).
Proof.
  revert p. induction keywords as [|keyword keywords IH]; intro p.
  - simpl. unfold ret. now rewrite add_effects_nil.
  - simpl. run. rewrite transferKeyword_run, IH.
    rewrite add_effects_app, <- map_app.
    f_equal.
Qed.

(** A replication run never raises; it leaves the instance as it was
    and adds its requests and one batch to the effects. *)
Lemma transferKeyValues_run node p :
  transferKeyValues node p
  = (Ok (transfer_calls p node), add_effects (replication p node) p).
Proof.
  unfold transferKeyValues, gatherResults, replication, transfer_calls. run.
  rewrite keyword_loop_run.
  now rewrite emit_add_effects, add_effects_app.
Qed.

Lemma addToRouter_run node p :
  addToRouter node p = (Ok tt, contacted p node).
Proof.
  unfold addToRouter, contacted. run.
  destruct (isNewNode (router p) node); run.
  - now rewrite transferKeyValues_run.
  - reflexivity.
Qed.

Lemma contacted_storage p node : storage (contacted p node) = storage p.
Proof. unfold contacted. now destruct (isNewNode _ _). Qed.

Lemma contacted_router p node :
  router (contacted p node) = addContact (router p) node.
Proof. unfold contacted. now destruct (isNewNode _ _). Qed.

Lemma contacted_ksize p node : ksize (contacted p node) = ksize p.
Proof. unfold contacted. now destruct (isNewNode _ _). Qed.

Lemma contacted_sourceNode p node : sourceNode (contacted p node) = sourceNode p.
Proof. unfold contacted. now destruct (isNewNode _ _). Qed.

Lemma exec_addToRouter node p : exec (addToRouter node) p = contacted p node.
Proof. unfold exec. now rewrite addToRouter_run. Qed.

(** ** STORE *)

Lemma admissible_test keyword key value :
  ((String.length keyword =? 20) && (String.length key <=? 33)
   && (String.length value <=? 1800))%nat = true
  <-> admissible keyword key value.
Proof.
  unfold admissible.
  rewrite !andb_true_iff, Nat.eqb_eq, !Nat.leb_le. tauto.
Qed.

Lemma storage_set_storage (s : S) p : storage (set_storage s p) = s.
Proof. reflexivity. Qed.

Lemma rpc_store_run p sender keyword key value :
  rpc_store sender keyword key value p
  = let p1 := contacted p sender in
    if ((String.length keyword =? 20) && (String.length key <=? 33)
        && (String.length value <=? 1800))%nat
    then (Ok [PStr "True"],
          set_storage (setitem (storage p1) keyword (key, value)) p1)
    else (Ok [PStr "False"], p1).
Proof.
  unfold rpc_store, bind. rewrite addToRouter_run.
  now destruct (_ && _ && _).
Qed.

(** C4. A STORE request is accepted, with reply ["True"] and the pair
    written under the keyword, exactly when the keyword has 20 bytes, the
    key at most 33 and the value at most 1800; otherwise the reply is
    ["False"] and the storage is left as it was.  A keyword of 19 bytes is
    rejected whatever the key and the value. *)
Theorem rpc_store_admission p sender keyword key value :
  let r := result_of (rpc_store sender keyword key value) p in
  let p' := exec (rpc_store sender keyword key value) p in
  (r = Ok [PStr "True"] <-> admissible keyword key value)
  /\ (r = Ok [PStr "False"] <-> ~ admissible keyword key value)
  /\ (admissible keyword key value ->
      storage p' = setitem (storage p) keyword (key, value))
  /\ (~ admissible keyword key value -> storage p' = storage p)
  /\ (String.length keyword = 19 ->
      r = Ok [PStr "False"] /\ storage p' = storage p).
Proof.
  unfold result_of, exec. rewrite rpc_store_run. cbv zeta.
  pose proof (admissible_test keyword key value) as T.
  assert (N19 : String.length keyword = 19 -> ~ admissible keyword key value)
    by (unfold admissible; lia).
  destruct ((String.length keyword =? 20) && (String.length key <=? 33)
            && (String.length value <=? 1800))%nat.
  - assert (A : admissible keyword key value) by now apply T.
    cbv [fst snd].
    rewrite storage_set_storage, contacted_storage.
    split; [tauto|]. split; [split; [discriminate | tauto]|].
    split; [reflexivity|]. split; [tauto|].
    intro H19. exfalso. now apply (N19 H19).
  - assert (A : ~ admissible keyword key value)
      by (intro A; apply T in A; discriminate).
    cbv [fst snd]. rewrite contacted_storage.
    split; [split; [discriminate | tauto]|]. split; [tauto|].
    split; [tauto|]. split; [reflexivity|]. now split.
Qed.

(** ** DELETE *)

Lemma rpc_delete_run p sender keyword key signature :
  rpc_delete sender keyword key signature p
  = let p1 := contacted p sender in
    let deleted := set_storage (delete (storage p) keyword key) p1 in
    match getSpecific (storage p) keyword key with
    | None => (Ok [PStr "False"], p1)
    | Some value =>
        if String.eqb keyword (digest (id sender)) then
          match VerifyKey (drop 64 (signed_pubkey sender)) with
          | Ok vk =>
              match verify vk key (Some signature) with
              | Ok _ => (Ok [PStr "True"], deleted)
              | Raise _ => (Ok [PStr "False"], p1)
              end
          | Raise _ => (Ok [PStr "False"], p1)
          end
        else
          match ParseFromString value with
          | Ok node =>
              match VerifyKey (drop 64 (signedPublicKey node)) with
              | Ok vk =>
                  match verify vk (signature ++ key)%string None with
                  | Ok _ => (Ok [PStr "True"], deleted)
                  | Raise _ => (Ok [PStr "False"], p1)
                  end
              | Raise _ => (Ok [PStr "False"], p1)
              end
          | Raise _ => (Ok [PStr "False"], p1)
          end
    end.
Proof.
  unfold rpc_delete, bind, gets, try_except, lift, modify, ret.
  rewrite addToRouter_run, contacted_storage. cbv zeta.
  destruct (getSpecific (storage p) keyword key) as [value|]; [|reflexivity].
  destruct (String.eqb keyword (digest (id sender))).
  - destruct (VerifyKey (drop 64 (signed_pubkey sender))) as [vk|e];
      [|reflexivity].
    destruct (verify vk key (Some signature)); [|reflexivity].
    cbv beta iota. now rewrite contacted_storage.
  - destruct (ParseFromString value) as [node|e]; [|reflexivity].
    destruct (VerifyKey (drop 64 (signedPublicKey node))) as [vk|e];
      [|reflexivity].
    destruct (verify vk (signature ++ key)%string None); [|reflexivity].
    cbv beta iota. now rewrite contacted_storage.
Qed.

(** Every DELETE is answered, with ["True"] or with ["False"]. *)
Lemma rpc_delete_answers p sender keyword key signature :
  result_of (rpc_delete sender keyword key signature) p = Ok [PStr "True"]
  \/ result_of (rpc_delete sender keyword key signature) p = Ok [PStr "False"].
Proof.
  unfold result_of. rewrite rpc_delete_run. cbv zeta.
  repeat match goal with
         | |- context [match ?x with _ => _ end] => destruct x
         end; cbn [fst]; auto.
Qed.

(** On the self-owned path the reply tells whether the signature holds. *)
Lemma rpc_delete_self p sender keyword key signature value :
  getSpecific (storage p) keyword key = Some value ->
  keyword = digest (id sender) ->
  (self_signed sender key signature
   /\ rpc_delete sender keyword key signature p
      = (Ok [PStr "True"],
         set_storage (delete (storage p) keyword key) (contacted p sender)))
  \/ (~ self_signed sender key signature
      /\ rpc_delete sender keyword key signature p
         = (Ok [PStr "False"], contacted p sender)).
Proof.
  intros Hv Hk. rewrite rpc_delete_run, Hv. cbv zeta.
  rewrite (proj2 (String.eqb_eq _ _) Hk).
  unfold self_signed.
  destruct (VerifyKey (drop 64 (signed_pubkey sender))) as [vk|e] eqn:K.
  - destruct (verify vk key (Some signature)) as [m|e] eqn:V.
    + left. split; [|reflexivity]. now exists vk, m.
    + right. split; [|reflexivity].
      intros (vk' & m & K' & V'). congruence.
  - right. split; [|reflexivity]. intros (vk' & m & K' & _). congruence.
Qed.

(** On the pointer path the reply tells whether the signature holds under
    the key of the peer the stored value describes. *)
Lemma rpc_delete_pointer p sender keyword key signature value :
  getSpecific (storage p) keyword key = Some value ->
  keyword <> digest (id sender) ->
  (pointer_signed value key signature
   /\ rpc_delete sender keyword key signature p
      = (Ok [PStr "True"],
         set_storage (delete (storage p) keyword key) (contacted p sender)))
  \/ (~ pointer_signed value key signature
      /\ rpc_delete sender keyword key signature p
         = (Ok [PStr "False"], contacted p sender)).
Proof.
  intros Hv Hk. rewrite rpc_delete_run, Hv. cbv zeta.
  rewrite (proj2 (String.eqb_neq _ _) Hk).
  unfold pointer_signed.
  destruct (ParseFromString value) as [node|e] eqn:P.
  - destruct (VerifyKey (drop 64 (signedPublicKey node))) as [vk|e] eqn:K.
    + destruct (verify vk (signature ++ key)%string None) as [m|e] eqn:V.
      * left. split; [|reflexivity]. now exists node, vk, m.
      * right. split; [|reflexivity].
        intros (node' & vk' & m & P' & K' & V'). congruence.
    + right. split; [|reflexivity].
      intros (node' & vk' & m & P' & K' & _). congruence.
  - right. split; [|reflexivity].
    intros (node' & vk' & m & P' & _). congruence.
Qed.

Lemma fault_not_authorised p sender keyword key signature :
  delete_fault p sender keyword key signature ->
  ~ authorised p sender keyword key signature.
Proof.
  intros F (value & Hv & [[Hk (vk & m & K & V)]
                         | [Hk (node & vk & m & P & K & V)]]);
    destruct F; congruence.
Qed.

(** A DELETE either carries its proof of authorship, is answered ["True"]
    and removes the record, or is answered ["False"] and changes nothing
    in the storage. *)
Lemma rpc_delete_cases p sender keyword key signature :
  (authorised p sender keyword key signature
   /\ rpc_delete sender keyword key signature p
      = (Ok [PStr "True"],
         set_storage (delete (storage p) keyword key) (contacted p sender)))
  \/ (~ authorised p sender keyword key signature
      /\ rpc_delete sender keyword key signature p
         = (Ok [PStr "False"], contacted p sender)).
Proof.
  destruct (getSpecific (storage p) keyword key) as [value|] eqn:Hv.
  - destruct (String.eqb_spec keyword (digest (id sender))) as [Hk|Hk].
    + destruct (rpc_delete_self p sender key signature Hv Hk)
        as [[A E]|[A E]]; [left|right]; (split; [|exact E]).
      * exists value. split; [exact Hv|]. left. now split.
      * intros (value' & Hv' & [[_ A']|[Hk' _]]); [now apply A | now apply Hk'].
    + destruct (rpc_delete_pointer p sender key signature Hv Hk)
        as [[A E]|[A E]]; [left|right]; (split; [|exact E]).
      * exists value. split; [exact Hv|]. right. now split.
      * intros (value' & Hv' & [[Hk' _]|[_ A']]); [now apply Hk|].
        apply A. congruence.
  - right. split.
    + intros (value & Hv' & _). congruence.
    + rewrite rpc_delete_run, Hv. reflexivity.
Qed.

(** C3. Whatever step of a DELETE fails (no record at (keyword, key), a
    pointer value that does not parse, malformed key material, a
    signature that does not verify), the reply is ["False"] and the
    storage is unchanged.  The reply is ["True"] or ["False"]; the record
    is removed only with ["True"], and then the signature the path asks
    for has been verified. *)
Theorem rpc_delete_fails_closed p sender keyword key signature :
  let r := result_of (rpc_delete sender keyword key signature) p in
  let p' := exec (rpc_delete sender keyword key signature) p in
  (delete_fault p sender keyword key signature ->
   r = Ok [PStr "False"] /\ storage p' = storage p)
  /\ (r = Ok [PStr "True"] \/ r = Ok [PStr "False"])
  /\ (r = Ok [PStr "False"] -> storage p' = storage p)
  /\ (r = Ok [PStr "True"] ->
      authorised p sender keyword key signature
      /\ storage p' = delete (storage p) keyword key)
  /\ (storage p' <> storage p -> authorised p sender keyword key signature).
Proof.
  unfold result_of, exec. cbv zeta.
  destruct (rpc_delete_cases p sender keyword key signature)
    as [[A E]|[A E]]; rewrite E; cbn [fst snd];
    rewrite ?storage_set_storage, ?contacted_storage.
  - split; [intro F; now apply fault_not_authorised in F|].
    split; [now left|]. split; [discriminate|]. now split.
  - split; [now split|]. split; [now right|]. split; [reflexivity|].
    split; [discriminate|]. intro N. now elim N.
Qed.

(** C1. A DELETE whose keyword is not the digest of the sender's
    identifier, for a record that exists at (keyword, key), succeeds only
    if [signature] followed by [key] is a valid signed message under the
    verification key embedded in the stored value read as a peer
    descriptor (its signed-public-key blob from offset 64 on).  Without
    that, whoever signed the request, the sender included, the reply is
    ["False"] and the record stays. *)
Theorem rpc_delete_pointer_authorised p sender keyword key signature value :
  keyword <> digest (id sender) ->
  getSpecific (storage p) keyword key = Some value ->
  let r := result_of (rpc_delete sender keyword key signature) p in
  let p' := exec (rpc_delete sender keyword key signature) p in
  (r = Ok [PStr "True"] <-> pointer_signed value key signature)
  /\ (~ pointer_signed value key signature ->
      r = Ok [PStr "False"] /\ storage p' = storage p)
  /\ (self_signed sender key signature ->
      ~ pointer_signed value key signature ->
      r = Ok [PStr "False"]).
Proof.
  intros Hk Hv. unfold result_of, exec. cbv zeta.
  destruct (rpc_delete_pointer p sender key signature Hv Hk)
    as [[A E]|[A E]]; rewrite E; cbn [fst snd];
    rewrite ?contacted_storage.
  - split; [tauto|]. split; intros; contradiction.
  - split; [split; [discriminate|contradiction]|]. now repeat split.
Qed.

(** C2, amended. A DELETE whose keyword is the digest of the sender's
    identifier, for a record that exists at (keyword, key), succeeds
    exactly when [signature] is a valid signature over the message [key]
    under the verification key in the sender's signed-public-key blob
    (from offset 64 on); with a forged signature the reply is ["False"]
    and the record stays. *)
Theorem rpc_delete_self_authorised p sender keyword key signature value :
  keyword = digest (id sender) ->
  getSpecific (storage p) keyword key = Some value ->
  let r := result_of (rpc_delete sender keyword key signature) p in
  let p' := exec (rpc_delete sender keyword key signature) p in
  (r = Ok [PStr "True"] <-> self_signed sender key signature)
  /\ (self_signed sender key signature ->
      storage p' = delete (storage p) keyword key)
  /\ (~ self_signed sender key signature ->
      r = Ok [PStr "False"] /\ storage p' = storage p).
Proof.
  intros Hk Hv. unfold result_of, exec. cbv zeta.
  destruct (rpc_delete_self p sender key signature Hv Hk)
    as [[A E]|[A E]]; rewrite E; cbn [fst snd];
    rewrite ?storage_set_storage, ?contacted_storage.
  - split; [tauto|]. split; [reflexivity|]. intros; contradiction.
  - split; [split; [discriminate|contradiction]|].
    split; [contradiction|]. now split.
Qed.

(** ** Replication *)

(** C5, amended. During replication to a newly discovered peer, a keyword
    is pushed exactly when: its neighbour list (the nearest known peers,
    the new peer left out) is empty; or the new peer is closer to the
    keyword than the farthest neighbour and this node is closer than the
    nearest; or this node is closer to the keyword than the nearest
    neighbour and there are fewer than k neighbours.  The requests of a
    run are the STORE requests of the pushed keywords, pair by pair. *)
Theorem transferKeyValues_rule p node :
  (forall keyword,
      pushes p node keyword = true
      <-> code_replicates (ksize p) (sourceNode p) node (Node_of keyword)
                          (neighbors_of p node keyword))
  /\ result_of (transferKeyValues node) p
     = Ok (flat_map
             (fun keyword =>
                if pushes p node keyword
                then map (store_call node keyword)
                         (iteritems (storage p) keyword)
                else [])
             (iterkeys (storage p)))
  /\ effects (exec (transferKeyValues node) p)
     = effects p ++ replication p node.
Proof.
  split; [|split].
  - intro keyword. unfold pushes, code_replicates, replicates.
    destruct (neighbors_of p node keyword) as [|first rest].
    + split; [now left | reflexivity].
    + rewrite orb_true_iff, !andb_true_iff, !N.ltb_lt, Nat.ltb_lt.
      split.
      * intros [[H1 H2]|[H2 H3]]; right; [left|right];
          exists first; now repeat split.
      * intros [H|[(f & Hf & H1 & H2)|(f & Hf & H2 & H3)]];
          [discriminate| |]; injection Hf as <-; [left|right]; now split.
  - unfold result_of. now rewrite transferKeyValues_run.
  - unfold exec. now rewrite transferKeyValues_run.
Qed.

Lemma runs_app es es' : runs (es ++ es') = runs es + runs es'.
Proof.
  induction es as [|[c|ds] es IH]; simpl; [reflexivity|exact IH|].
  now rewrite IH.
Qed.

Lemma runs_sent (cs : list Call) : runs (map Sent cs) = 0.
Proof. induction cs; simpl; auto. Qed.

Lemma runs_replication p node : runs (replication p node) = 1.
Proof. unfold replication. now rewrite runs_app, runs_sent. Qed.

(** ** Contact management *)

Lemma handleCallResponse_run p (result : bool * list string) node :
  handleCallResponse result node p
  = (Ok result,
     if fst result then contacted p node
     else set_router (removeContact (router p) node) p).
Proof.
  unfold handleCallResponse, contacted, bind, gets, modify, ret.
  destruct (fst result); [|reflexivity].
  destruct (isNewNode (router p) node); [|reflexivity].
  now rewrite transferKeyValues_run.
Qed.

Lemma contacted_effects p node :
  effects (contacted p node)
  = if isNewNode (router p) node then effects p ++ replication p node
    else effects p.
Proof. unfold contacted. now destruct (isNewNode _ _). Qed.

(** C7. When an outbound call completes with a failure, the peer is
    removed from the routing table and is unknown afterwards; when it
    completes with success, the peer is added and is known afterwards, a
    replication run towards it coming first if the routing table reports
    it as new.  The result is handed back as it came. *)
Theorem handleCallResponse_contacts p (result : bool * list string) node :
  router_contract ->
  let p' := exec (handleCallResponse result node) p in
  result_of (handleCallResponse result node) p = Ok result
  /\ (fst result = false ->
      router p' = removeContact (router p) node
      /\ isNewNode (router p') node = true
      /\ effects p' = effects p)
  /\ (fst result = true ->
      router p' = addContact (router p) node
      /\ isNewNode (router p') node = false
      /\ effects p'
         = if isNewNode (router p) node
           then effects p ++ replication p node
           else effects p).
Proof.
  intros [Hadd Hrem]. unfold result_of, exec. cbv zeta.
  rewrite handleCallResponse_run. cbn [fst snd].
  split; [reflexivity|].
  split; intro E; rewrite E.
  - cbn. now rewrite Hrem.
  - rewrite contacted_router, contacted_effects, Hadd. now repeat split.
Qed.

(** C8. Two calls of [addToRouter] in a row with a peer the routing table
    has not seen run the replication once: the first call replicates and
    adds the peer, the second finds it known, replicates nothing and only
    adds the contact again. *)
Theorem addToRouter_twice p node :
  router_contract ->
  isNewNode (router p) node = true ->
  let p1 := exec (addToRouter node) p in
  let p2 := exec (addToRouter node) p1 in
  effects p1 = effects p ++ replication p node
  /\ isNewNode (router p1) node = false
  /\ effects p2 = effects p1
  /\ p2 = set_router (addContact (router p1) node) p1
  /\ runs (effects p2) = Datatypes.S (runs (effects p)).
Proof.
  intros [Hadd _] Hnew. cbv zeta. rewrite !exec_addToRouter.
  assert (K : isNewNode (router (contacted p node)) node = false)
    by now rewrite contacted_router.
  assert (E1 : effects (contacted p node) = effects p ++ replication p node)
    by now rewrite contacted_effects, Hnew.
  assert (E2 : contacted (contacted p node) node
               = set_router (addContact (router (contacted p node)) node)
                            (contacted p node))
    by (unfold contacted at 1; now rewrite K).
  split; [exact E1|]. split; [exact K|].
  rewrite E2. split; [reflexivity|]. split; [reflexivity|].
  cbn [effects set_router]. rewrite E1, runs_app, runs_replication. lia.
Qed.

(** ** Lookups *)

Lemma rpc_find_node_run p sender key :
  rpc_find_node sender key p
  = (Ok (map (fun n => PStr (SerializeToString (getProto n)))
             (findNeighbors (addContact (router p) sender) (Node_of key) sender)),
     contacted p sender).
Proof.
  unfold rpc_find_node, bind, gets, ret.
  now rewrite addToRouter_run, contacted_router.
Qed.

Lemma rpc_find_value_run p sender keyword :
  rpc_find_value sender keyword p
  = match get (storage p) keyword with
    | None => rpc_find_node sender keyword (contacted p sender)
    | Some value =>
        (Ok (PStr "value" :: map (fun kv => PTuple (fst kv) (snd kv)) value),
         contacted p sender)
    end.
Proof.
  unfold rpc_find_value, bind, gets, ret.
  rewrite addToRouter_run, contacted_storage.
  now destruct (get (storage p) keyword).
Qed.

(** C6. A FIND_VALUE for a keyword without records is answered by the
    FIND_NODE handler, run for the same sender and keyword once the sender
    has been recorded, and its reply is the reply a FIND_NODE request of
    that sender for that keyword gets; a FIND_VALUE for a keyword with
    records is answered with the marker "value" followed by the stored
    pairs. *)
Theorem rpc_find_value_reply p sender keyword :
  readd_keeps_neighbors ->
  (get (storage p) keyword = None ->
   rpc_find_value sender keyword p
   = rpc_find_node sender keyword (exec (addToRouter sender) p)
   /\ result_of (rpc_find_value sender keyword) p
      = result_of (rpc_find_node sender keyword) p)
  /\ (forall value,
        get (storage p) keyword = Some value ->
        result_of (rpc_find_value sender keyword) p
        = Ok (PStr "value" :: map (fun kv => PTuple (fst kv) (snd kv)) value)).
Proof.
  intro Hre. split.
  - intro Hn. unfold result_of.
    rewrite exec_addToRouter, rpc_find_value_run, Hn.
    split; [reflexivity|].
    rewrite !rpc_find_node_run. cbn [fst].
    now rewrite contacted_router, Hre.
  - intros value Hv. unfold result_of.
    now rewrite rpc_find_value_run, Hv.
Qed.


(** ** Handler boundary *)

Lemma rpc_ping_run p sender :
  rpc_ping sender p
  = (Ok [PStr (SerializeToString (getProto (sourceNode p)))],
     contacted p sender).
Proof.
  unfold rpc_ping, bind, gets, ret.
  now rewrite addToRouter_run, contacted_sourceNode.
Qed.

Lemma rpc_stun_run p sender :
  rpc_stun sender p
  = (Ok [PStr (ip sender); PStr (str (port sender))], contacted p sender).
Proof. unfold rpc_stun, bind, ret. now rewrite addToRouter_run. Qed.

(** On a key that is not empty the constructor succeeds, and the lookup is
    the one studied above. *)
Lemma rpc_find_node_strict_agrees p sender key :
  key <> "" ->
  rpc_find_node_strict sender key p = rpc_find_node sender key p.
Proof.
  intro Hk. unfold rpc_find_node_strict, rpc_find_node, bind, lift.
  destruct key as [|c key]; [contradiction|reflexivity].
Qed.

Lemma rpc_find_node_strict_empty p sender :
  rpc_find_node_strict sender "" p = (Raise ValueError, contacted p sender).
Proof.
  unfold rpc_find_node_strict, bind, lift. now rewrite addToRouter_run.
Qed.

Lemma rpc_find_value_strict_run p sender keyword :
  rpc_find_value_strict sender keyword p
  = match get (storage p) keyword with
    | None => rpc_find_node_strict sender keyword (contacted p sender)
    | Some value =>
        (Ok (PStr "value" :: map (fun kv => PTuple (fst kv) (snd kv)) value),
         contacted p sender)
    end.
Proof.
  unfold rpc_find_value_strict, bind, gets, ret.
  rewrite addToRouter_run, contacted_storage.
  now destruct (get (storage p) keyword).
Qed.

(** Apart from the lookups on an empty key, a request is served as
    [handle] serves it. *)
Lemma handle_strict_agrees p sender (req : Request) :
  req <> ReqFindNode "" ->
  (req = ReqFindValue "" -> get (storage p) "" <> None) ->
  handle_strict sender req p = handle sender req p.
Proof.
  intros Hn Hv. destruct req as [| |kw k v|kw k sg|key|keyword];
    cbn [handle_strict handle]; try reflexivity.
  - apply rpc_find_node_strict_agrees. intros ->. now apply Hn.
  - rewrite rpc_find_value_strict_run, rpc_find_value_run.
    destruct (get (storage p) keyword) eqn:G; [reflexivity|].
    apply rpc_find_node_strict_agrees. intros ->. now apply Hv.
Qed.

(** C9 fails at a FIND_NODE with an empty key.  The handler records the
    sender and then builds [Node(key)] outside any [try]: [ValueError]
    leaves the handler and no reply list is returned.  The same happens to
    a FIND_VALUE for the empty keyword when nothing is stored under it. *)
Theorem find_node_empty_key_raises p sender :
  result_of (handle_strict sender (ReqFindNode "")) p = Raise ValueError
  /\ exec (handle_strict sender (ReqFindNode "")) p = contacted p sender
  /\ (get (storage p) "" = None ->
      result_of (handle_strict sender (ReqFindValue "")) p = Raise ValueError)
  /\ ~ (exists r : reply,
          result_of (handle_strict sender (ReqFindNode "")) p = Ok r).
Proof.
  unfold result_of, exec. cbn [handle_strict].
  rewrite rpc_find_node_strict_empty. cbn [fst snd].
  split; [reflexivity|]. split; [reflexivity|]. split.
  - intro G. now rewrite rpc_find_value_strict_run, G,
      rpc_find_node_strict_empty.
  - intros (r & E). discriminate E.
Qed.

End Facts.

(** * The flat routing table meets the contract *)

Lemma same_id_refl (n : Node) : Flat.same_id n n = true.
Proof. apply String.eqb_refl. Qed.

Lemma others_absent (n : Node) (l : list Node) :
  existsb (Flat.same_id n) (Flat.others n l) = false.
Proof.
  unfold Flat.others. induction l as [|m l IH]; simpl; [reflexivity|].
  destruct (Flat.same_id n m) eqn:E; simpl; [exact IH|].
  now rewrite E, IH.
Qed.

Lemma others_others (n : Node) (l : list Node) :
  Flat.others n (Flat.others n l) = Flat.others n l.
Proof.
  unfold Flat.others. induction l as [|m l IH]; simpl; [reflexivity|].
  destruct (Flat.same_id n m) eqn:E; simpl; [exact IH|].
  now rewrite E, IH.
Qed.

Lemma others_app (n : Node) (l l' : list Node) :
  Flat.others n (l ++ l') = Flat.others n l ++ Flat.others n l'.
Proof. apply filter_app. Qed.

Lemma flat_add_contact_twice (r : Flat.Router) (n : Node) :
  Flat.add_contact (Flat.add_contact r n) n = Flat.add_contact r n.
Proof.
  unfold Flat.add_contact. simpl. f_equal.
  rewrite others_app, others_others. f_equal.
  unfold Flat.others. simpl. now rewrite same_id_refl, app_nil_r.
Qed.

Lemma flat_router_contract : @router_contract Flat.Router Flat.routing.
Proof.
  split; intros r n; simpl; unfold Flat.is_new_node; simpl.
  - rewrite existsb_app. simpl. now rewrite same_id_refl, orb_true_r.
  - now rewrite others_absent.
Qed.

Lemma flat_readd_keeps_neighbors :
  @readd_keeps_neighbors Flat.Router Flat.routing.
Proof.
  intros r n target. simpl. now rewrite flat_add_contact_twice.
Qed.

(** * The protocol at work on concrete requests *)

Example store_accepts :
  result_of (rpc_store (Toy.peer 2) (Toy.ident 9) "k" "v") Toy.node0
  = Ok [PStr "True"].
Proof. reflexivity. Qed.

Example store_rejects_short_keyword :
  result_of (rpc_store (Toy.peer 2) (Toy.bytes 19 zero) "k" "v") Toy.node0
  = Ok [PStr "False"].
Proof. reflexivity. Qed.

(** The peer a pointer record refers to can retract it. *)
Example pointer_delete_by_referenced_peer :
  result_of (rpc_delete (Toy.peer 2) (Toy.ident 9) "k" (Toy.sign 4))
            Toy.pointer_state
  = Ok [PStr "True"].
Proof. reflexivity. Qed.

(** The requester's own signature does not. *)
Example pointer_delete_by_requester :
  result_of (rpc_delete (Toy.peer 2) (Toy.ident 9) "k" (Toy.sign 2))
            Toy.pointer_state
  = Ok [PStr "False"].
Proof. reflexivity. Qed.

Lemma rpc_delete_pointer_authorised_witness :
  Toy.ident 9 <> digest (id (Toy.peer 2))
  /\ getSpecific (storage Toy.pointer_state) (Toy.ident 9) "k"
     = Some (Toy.descriptor 4)
  /\ (result_of (rpc_delete (Toy.peer 2) (Toy.ident 9) "k" (Toy.sign 4))
                Toy.pointer_state
      = Ok [PStr "True"]
      <-> pointer_signed (Toy.descriptor 4) "k" (Toy.sign 4)).
Proof.
  assert (Hk : Toy.ident 9 <> digest (id (Toy.peer 2)))
    by (apply String.eqb_neq; reflexivity).
  split; [exact Hk|]. split; [reflexivity|].
  exact (proj1 (rpc_delete_pointer_authorised Toy.pointer_state (Toy.peer 2)
                  "k" (Toy.sign 4) Hk eq_refl)).
Defined.

Lemma rpc_delete_self_authorised_witness :
  Toy.ident 2 = digest (id (Toy.peer 2))
  /\ getSpecific (storage Toy.own_state) (Toy.ident 2) "k" = Some "v"
  /\ (result_of (rpc_delete (Toy.peer 2) (Toy.ident 2) "k" (Toy.sign 2))
                Toy.own_state
      = Ok [PStr "True"]
      <-> self_signed (Toy.peer 2) "k" (Toy.sign 2)).
Proof.
  split; [reflexivity|]. split; [reflexivity|].
  exact (proj1 (rpc_delete_self_authorised Toy.own_state (Toy.peer 2)
                  "k" (Toy.sign 2) eq_refl eq_refl)).
Defined.

(** C2 as stated fails: a DELETE under the sender's own digest, carrying a
    valid signature, is answered ["False"] when no record is stored at
    (keyword, key). *)
Lemma self_delete_claim_fails :
  ~ self_delete_claim Toy.node0 (Toy.peer 2) (Toy.ident 2) "k" (Toy.sign 2).
Proof.
  intro C. destruct (C eq_refl) as [_ H].
  assert (Sg : self_signed (Toy.peer 2) "k" (Toy.sign 2)).
  { exists (Toy.key_of 2), "k". split; reflexivity. }
  specialize (H Sg). vm_compute in H. discriminate H.
Qed.

(** C5 as stated fails: with one neighbour at distance 4, this node at
    distance 1 and the new peer at distance 8, the record is pushed to the
    new peer although this node is not an entry of the neighbour list. *)
Lemma replication_claim_fails :
  neighbors_of Toy.replica_state (Toy.peer 8) (Toy.ident 0) = [Toy.peer 4]
  /\ result_of (transferKeyValues (Toy.peer 8)) Toy.replica_state
     = Ok [store_call (Toy.peer 8) (Toy.ident 0) ("k", "v")]
  /\ ~ replication_claim (ksize Toy.replica_state)
                         (sourceNode Toy.replica_state) (Toy.peer 8)
                         (Node_of (Toy.ident 0))
                         (neighbors_of Toy.replica_state (Toy.peer 8)
                                       (Toy.ident 0)).
Proof.
  assert (E : neighbors_of Toy.replica_state (Toy.peer 8) (Toy.ident 0)
              = [Toy.peer 4]) by reflexivity.
  split; [exact E|]. split; [reflexivity|].
  rewrite E. intros [H _].
  destruct (H eq_refl) as [H0|[(f & Hf & H1 & _)|(f & Hf & Hid & _)]].
  - discriminate H0.
  - injection Hf as <-. vm_compute in H1. discriminate H1.
  - injection Hf as <-. vm_compute in Hid. discriminate Hid.
Qed.

Lemma handleCallResponse_contacts_witness :
  isNewNode
    (router (exec (handleCallResponse (false, []) (Toy.peer 4))
                  Toy.replica_state))
    (Toy.peer 4) = true
  /\ isNewNode
       (router (exec (handleCallResponse (true, ["pong"]) (Toy.peer 2))
                     Toy.replica_state))
       (Toy.peer 2) = false.
Proof.
  split.
  - exact (proj1 (proj2 (proj1 (proj2
             (handleCallResponse_contacts Toy.replica_state (false, [])
                (Toy.peer 4) flat_router_contract)) eq_refl))).
  - exact (proj1 (proj2 (proj2 (proj2
             (handleCallResponse_contacts Toy.replica_state (true, ["pong"])
                (Toy.peer 2) flat_router_contract)) eq_refl))).
Defined.

Lemma addToRouter_twice_witness :
  isNewNode (router Toy.replica_state) (Toy.peer 2) = true
  /\ runs (effects (exec (addToRouter (Toy.peer 2))
                         (exec (addToRouter (Toy.peer 2)) Toy.replica_state)))
     = 1.
Proof.
  split; [reflexivity|].
  exact (proj2 (proj2 (proj2 (proj2
           (addToRouter_twice Toy.replica_state (Toy.peer 2)
              flat_router_contract eq_refl))))).
Defined.

Lemma rpc_find_value_reply_witness :
  get (storage Toy.replica_state) (Toy.ident 5) = None
  /\ result_of (rpc_find_value (Toy.peer 2) (Toy.ident 5)) Toy.replica_state
     = result_of (rpc_find_node (Toy.peer 2) (Toy.ident 5)) Toy.replica_state.
Proof.
  split; [reflexivity|].
  exact (proj2 (proj1 (rpc_find_value_reply Toy.replica_state (Toy.peer 2)
                         (Toy.ident 5) flat_readd_keeps_neighbors) eq_refl)).
Defined.


(** * Further properties of the protocol *)

Section HandlerFacts.
Context {R S VK : Type}.
Context {RT : RoutingTable R} {ST : Storage S} {SG : Signing VK} {CD : Codec}.

Implicit Types (p q : Protocol R S) (node sender : Node).

(** The instance a handler leaves: the sender recorded once (twice on the
    FIND_VALUE fallback), and the storage possibly rewritten by STORE and
    DELETE. *)
Lemma handle_exec sender (req : Request) p :
  exists q,
    (q = contacted p sender \/ q = contacted (contacted p sender) sender)
    /\ (exec (handle sender req) p = q
        \/ (writes req = true
            /\ exists s, exec (handle sender req) p = set_storage s q)).
Proof.
  unfold exec.
  destruct req as [| |kw k v|kw k sg|k|kw]; cbn [handle writes].
  - rewrite rpc_ping_run. exists (contacted p sender). auto.
  - rewrite rpc_stun_run. exists (contacted p sender). auto.
  - rewrite rpc_store_run. cbv zeta. exists (contacted p sender).
    split; [auto|]. destruct (_ && _ && _); cbn [snd]; [right|auto].
    split; [reflexivity|]. now eexists.
  - exists (contacted p sender). split; [auto|].
    destruct (rpc_delete_cases p sender kw k sg) as [[_ E]|[_ E]];
      rewrite E; cbn [snd]; [right|auto].
    split; [reflexivity|]. now eexists.
  - rewrite rpc_find_node_run. exists (contacted p sender). auto.
  - rewrite rpc_find_value_run. destruct (get (storage p) kw).
    + exists (contacted p sender). auto.
    + rewrite rpc_find_node_run.
      exists (contacted (contacted p sender) sender). auto.
Qed.

Lemma store_call_store_to node keyword kv :
  store_to node (store_call node keyword kv).
Proof. now repeat split. Qed.

Lemma transfer_calls_store_to p node :
  Forall (store_to node) (transfer_calls p node).
Proof.
  unfold transfer_calls. apply Forall_flat_map, Forall_forall.
  intros keyword _. unfold keyword_calls.
  destruct (pushes p node keyword); [|constructor].
  apply Forall_map, Forall_forall. intros kv _. apply store_call_store_to.
Qed.

Lemma replication_shape p node :
  Forall (replication_to node) (replication p node).
Proof.
  unfold replication. apply Forall_app. split.
  - apply Forall_map. exact (transfer_calls_store_to p node).
  - constructor; [|constructor]. exact (transfer_calls_store_to p node).
Qed.

(** What [addToRouter] adds to the effects. *)
Lemma contacted_adds p node :
  exists es,
    effects (contacted p node) = effects p ++ es
    /\ Forall (replication_to node) es
    /\ runs es = (if isNewNode (router p) node then 1 else 0).
Proof.
  rewrite contacted_effects. destruct (isNewNode (router p) node).
  - exists (replication p node).
    split; [reflexivity|]. split; [apply replication_shape|].
    apply runs_replication.
  - exists []. rewrite app_nil_r. now repeat split.
Qed.

(** X1. No handler changes [ksize] or [sourceNode], and PING, STUN,
    FIND_NODE and FIND_VALUE leave the storage as it is: only STORE and
    DELETE write to it. *)
Theorem handlers_frame p sender (req : Request) :
  let p' := exec (handle sender req) p in
  ksize p' = ksize p
  /\ sourceNode p' = sourceNode p
  /\ (writes req = false -> storage p' = storage p).
Proof.
  cbv zeta.
  destruct (handle_exec sender req p) as (q & Hq & [E|(W & s & E)]);
    rewrite E; cbn [ksize sourceNode storage set_storage];
    destruct Hq as [-> | ->];
    rewrite ?contacted_ksize, ?contacted_sourceNode, ?contacted_storage;
    repeat split; intros; congruence.
Qed.

(** X2. After any inbound request, accepted or rejected, the sender is
    known to the routing table (a table that knows the peers it was given). *)
Theorem handlers_record_sender p sender (req : Request) :
  router_contract ->
  isNewNode (router (exec (handle sender req) p)) sender = false.
Proof.
  intros [Hadd _].
  destruct (handle_exec sender req p) as (q & Hq & [E|(_ & s & E)]);
    rewrite E; cbn [router set_storage];
    destruct Hq as [-> | ->]; now rewrite contacted_router.
Qed.

(** X3. A request from a peer the routing table already knows causes no
    outbound traffic: the effects are as before. *)
Theorem known_sender_no_traffic p sender (req : Request) :
  router_contract ->
  isNewNode (router p) sender = false ->
  effects (exec (handle sender req) p) = effects p.
Proof.
  intros [Hadd _] Hknown.
  assert (E1 : effects (contacted p sender) = effects p)
    by now rewrite contacted_effects, Hknown.
  assert (E2 : effects (contacted (contacted p sender) sender) = effects p)
    by now rewrite contacted_effects, contacted_router, Hadd.
  destruct (handle_exec sender req p) as (q & Hq & [E|(_ & s & E)]);
    rewrite E; cbn [effects set_storage];
    destruct Hq as [-> | ->]; assumption.
Qed.

(** X4. A request runs the replication once if its sender is new to the
    routing table and not at all otherwise; the FIND_VALUE fallback, which
    records the sender twice, still replicates once. *)
Theorem handlers_replicate_once p sender (req : Request) :
  router_contract ->
  runs (effects (exec (handle sender req) p))
  = runs (effects p) + (if isNewNode (router p) sender then 1 else 0).
Proof.
  intros [Hadd _].
  assert (E1 : runs (effects (contacted p sender))
               = runs (effects p)
                 + (if isNewNode (router p) sender then 1 else 0)).
  { destruct (contacted_adds p sender) as (es & -> & _ & <-).
    apply runs_app. }
  assert (E2 : runs (effects (contacted (contacted p sender) sender))
               = runs (effects p)
                 + (if isNewNode (router p) sender then 1 else 0)).
  { rewrite contacted_effects, contacted_router, Hadd. exact E1. }
  destruct (handle_exec sender req p) as (q & Hq & [E|(_ & s & E)]);
    rewrite E; cbn [effects set_storage];
    destruct Hq as [-> | ->]; assumption.
Qed.

End HandlerFacts.

Section ReplicationFacts.
Context {R S VK : Type}.
Context {RT : RoutingTable R} {ST : Storage S} {SG : Signing VK} {CD : Codec}.

Implicit Types (p : Protocol R S) (node source keynode : Node).

(** X6. Replication and contact management never write to the storage and
    never change [ksize] or [sourceNode]; a replication run leaves the
    routing table alone as well. *)
Theorem contact_management_frame p node (result : bool * list string) :
  let t := exec (transferKeyValues node) p in
  let a := exec (addToRouter node) p in
  let h := exec (handleCallResponse result node) p in
  (storage t = storage p /\ router t = router p
   /\ ksize t = ksize p /\ sourceNode t = sourceNode p)
  /\ (storage a = storage p /\ ksize a = ksize p
      /\ sourceNode a = sourceNode p)
  /\ (storage h = storage p /\ ksize h = ksize p
      /\ sourceNode h = sourceNode p).
Proof.
  cbv zeta. unfold exec.
  rewrite transferKeyValues_run, addToRouter_run, handleCallResponse_run.
  cbn [snd]. split; [now repeat split|].
  rewrite contacted_storage, contacted_ksize, contacted_sourceNode.
  split; [now repeat split|].
  destruct (fst result);
    rewrite ?contacted_storage, ?contacted_ksize, ?contacted_sourceNode;
    now repeat split.
Qed.


(** X8. With nothing in the storage a replication run sends no request,
    and still closes with an (empty) batch. *)
Theorem transferKeyValues_empty_storage p node :
  iterkeys (storage p) = [] ->
  transferKeyValues node p = (Ok [], add_effects [Gathered []] p).
Proof.
  intro E. rewrite transferKeyValues_run.
  unfold replication, transfer_calls. now rewrite E.
Qed.

(** X9. When the routing table has no neighbour to offer for any stored
    keyword, the new peer is sent every stored pair. *)
Theorem transferKeyValues_no_neighbors p node :
  (forall keyword,
      In keyword (iterkeys (storage p)) -> neighbors_of p node keyword = []) ->
  result_of (transferKeyValues node) p
  = Ok (flat_map
          (fun keyword =>
             map (store_call node keyword) (iteritems (storage p) keyword))
          (iterkeys (storage p))).
Proof.
  intro H. unfold result_of. rewrite transferKeyValues_run. cbn [fst].
  f_equal. unfold transfer_calls.
  induction (iterkeys (storage p)) as [|keyword keywords IH];
    [reflexivity|].
  cbn [flat_map]. rewrite IH by (intros; apply H; now right).
  f_equal. unfold keyword_calls, pushes.
  now rewrite (H keyword (or_introl eq_refl)).
Qed.

(** X10. A keyword is never pushed when the nearest known neighbour is at
    least as close to it as this node. *)
Theorem no_push_past_closer_neighbor p node keyword first rest :
  neighbors_of p node keyword = first :: rest ->
  (distanceTo first (Node_of keyword)
   <= distanceTo (sourceNode p) (Node_of keyword))%N ->
  pushes p node keyword = false /\ keyword_calls p node keyword = [].
Proof.
  intros E D.
  assert (P : pushes p node keyword = false).
  { unfold pushes. rewrite E. unfold replicates.
    apply N.ltb_ge in D. rewrite D. now rewrite andb_false_r. }
  split; [exact P|]. unfold keyword_calls. now rewrite P.
Qed.

(** X11. With fewer than k neighbours the decision does not depend on the
    new peer: the keyword goes to any new peer or to none. *)
Theorem under_k_ignores_new_peer k source node node' keynode
        (neighbors : list Node) :
  List.length neighbors < k ->
  replicates k source node keynode neighbors
  = replicates k source node' keynode neighbors.
Proof.
  intro L. apply Nat.ltb_lt in L. unfold replicates.
  destruct neighbors as [|first rest]; [reflexivity|].
  rewrite L.
  destruct (distanceTo source keynode <? distanceTo first keynode)%N.
  - now rewrite !andb_true_r, !orb_true_r.
  - now rewrite !andb_false_r.
Qed.

(** X12. With k neighbours or more, a keyword is pushed exactly when the
    new peer is closer to it than the farthest neighbour and this node is
    closer than the nearest. *)
Theorem full_neighborhood_rule k source node keynode first rest :
  k <= List.length (first :: rest) ->
  replicates k source node keynode (first :: rest) = true
  <-> (distanceTo node keynode
       < distanceTo (last (first :: rest) first) keynode)%N
      /\ (distanceTo source keynode < distanceTo first keynode)%N.
Proof.
  intro L. apply Nat.ltb_ge in L. unfold replicates. rewrite L.
  rewrite andb_false_r, orb_false_r, andb_true_iff, !N.ltb_lt.
  reflexivity.
Qed.

(** X13. A successful response acts on the instance exactly as the
    contact update of an inbound request does, whatever its payload. *)
Theorem success_response_is_addToRouter p node (payload : list string) :
  exec (handleCallResponse (true, payload) node) p
  = exec (addToRouter node) p.
Proof.
  unfold exec. now rewrite handleCallResponse_run, addToRouter_run.
Qed.

(** X14. A peer evicted after a failed call is new again: its next request
    starts a fresh replication run. *)
Theorem evicted_peer_is_rediscovered p node (payload : list string) :
  router_contract ->
  let p1 := exec (handleCallResponse (false, payload) node) p in
  isNewNode (router p1) node = true
  /\ runs (effects (exec (addToRouter node) p1))
     = Datatypes.S (runs (effects p)).
Proof.
  intros [_ Hrem]. cbv zeta. unfold exec at 1 3.
  rewrite handleCallResponse_run. cbn [fst snd].
  split; [apply Hrem|].
  rewrite exec_addToRouter, contacted_effects. cbn [router set_router].
  rewrite Hrem, runs_app, runs_replication. cbn [effects set_router]. lia.
Qed.

End ReplicationFacts.

Section StorageFacts.
Context {R S VK : Type}.
Context {RT : RoutingTable R} {ST : Storage S} {SG : Signing VK} {CD : Codec}.

Implicit Types (p : Protocol R S) (sender : Node).

(** X15. The bounds of STORE are inclusive and the key and the value may
    be empty: a 20-byte keyword with a key of 33 bytes and a value of 1800
    is accepted, as is one with an empty key and an empty value; one byte
    more in the key or in the value and the request is rejected. *)
Theorem rpc_store_bounds p sender keyword key value :
  String.length keyword = 20 ->
  let r := result_of (rpc_store sender keyword key value) p in
  (String.length key = 33 -> String.length value = 1800 ->
   r = Ok [PStr "True"])
  /\ (key = "" -> value = "" -> r = Ok [PStr "True"])
  /\ (String.length key = 34 -> r = Ok [PStr "False"])
  /\ (String.length value = 1801 -> r = Ok [PStr "False"]).
Proof.
  intro Hk. cbv zeta. unfold result_of. rewrite rpc_store_run. cbv zeta.
  pose proof (admissible_test keyword key value) as T.
  unfold admissible in T.
  destruct ((String.length keyword =? 20) && (String.length key <=? 33)
            && (String.length value <=? 1800))%nat; cbn [fst].
  - split; [reflexivity|]. split; [reflexivity|].
    destruct T as [T _]. specialize (T eq_refl).
    split; intro; exfalso; lia.
  - assert (N : ~ (String.length keyword = 20 /\ String.length key <= 33
                   /\ String.length value <= 1800))
      by (intro A; apply T in A; discriminate).
    split; [intros; exfalso; apply N; lia|].
    split; [intros -> ->; exfalso; apply N; cbn; lia|].
    now split.
Qed.

(** X16. What a STORE has written is what a FIND_VALUE for the keyword
    returns: after an accepted STORE, a FIND_VALUE from any peer is
    answered with "value" and the pairs the storage lists under the
    keyword, not with neighbours. *)
Theorem store_then_find_value p sender asker keyword key value items :
  admissible keyword key value ->
  get (setitem (storage p) keyword (key, value)) keyword = Some items ->
  result_of (rpc_find_value asker keyword)
            (exec (rpc_store sender keyword key value) p)
  = Ok (PStr "value" :: map (fun kv => PTuple (fst kv) (snd kv)) items).
Proof.
  intros A G. apply admissible_test in A.
  unfold exec, result_of. rewrite rpc_store_run. cbv zeta. rewrite A.
  cbn [snd]. rewrite rpc_find_value_run.
  rewrite storage_set_storage, contacted_storage, G. reflexivity.
Qed.

(** X17. A peer can retract what it stored under the digest of its own
    identifier: after its accepted STORE, its DELETE for the same key with
    a signature that verifies under its own key is answered ["True"]. *)
Theorem store_then_delete_own p sender keyword key value stored signature :
  admissible keyword key value ->
  keyword = digest (id sender) ->
  getSpecific (setitem (storage p) keyword (key, value)) keyword key
  = Some stored ->
  self_signed sender key signature ->
  result_of (rpc_delete sender keyword key signature)
            (exec (rpc_store sender keyword key value) p)
  = Ok [PStr "True"].
Proof.
  intros A Hk G Sg. apply admissible_test in A.
  unfold exec, result_of. rewrite rpc_store_run. cbv zeta. rewrite A.
  cbn [snd].
  set (p1 := set_storage _ _).
  assert (G1 : getSpecific (storage p1) keyword key = Some stored)
    by (unfold p1; now rewrite storage_set_storage, contacted_storage).
  destruct (rpc_delete_self p1 sender key signature G1 Hk) as [[_ E]|[N _]].
  - now rewrite E.
  - contradiction.
Qed.

(** X18. A DELETE cannot be replayed: once a DELETE has succeeded and the
    storage no longer has the record, the same request, or any other for
    that record, is answered ["False"]. *)
Theorem delete_replay_fails p sender keyword key signature sender' signature' :
  result_of (rpc_delete sender keyword key signature) p = Ok [PStr "True"] ->
  getSpecific (delete (storage p) keyword key) keyword key = None ->
  result_of (rpc_delete sender' keyword key signature')
            (exec (rpc_delete sender keyword key signature) p)
  = Ok [PStr "False"].
Proof.
  unfold result_of, exec. intros T G.
  destruct (rpc_delete_cases p sender keyword key signature)
    as [[_ E]|[_ E]]; rewrite E in *; [|discriminate T].
  cbn [snd]. rewrite rpc_delete_run. cbv zeta.
  now rewrite storage_set_storage, G.
Qed.

End StorageFacts.

Section RefreshFacts.
Context {R S G : Type} {BK : Buckets R} {RD : Random G}.

(** X19. [getRefreshIDs] gives one identifier per lonely bucket, in the
    order of the buckets, each inside the range of its bucket. *)
Theorem getRefreshIDs_in_ranges (p : Protocol R S) (g : G) :
  randint_contract ->
  Forall (fun bucket => (fst bucket <= snd bucket)%N)
         (getLonelyBuckets (router p)) ->
  exists ids g',
    getRefreshIDs p g = (Ok ids, g')
    /\ Forall2 (fun bucket x => (fst bucket <= x <= snd bucket)%N)
               (getLonelyBuckets (router p)) ids.
Proof.
  intros C. unfold getRefreshIDs.
  generalize (getLonelyBuckets (router p)) as buckets.
  intros buckets F. revert g.
  induction F as [|bucket rest Hb _ IH]; intro g.
  - exists [], g. split; [reflexivity|constructor].
  - destruct (proj1 (C g (fst bucket) (snd bucket)) Hb) as (x & g1 & E & Hx).
    destruct (IH g1) as (ids & g2 & E2 & F2).
    exists (x :: ids), g2. cbn [refresh_ids]. rewrite E, E2.
    split; [reflexivity|now constructor].
Qed.

(** X20. A lonely bucket whose range is empty makes [getRefreshIDs] raise
    [ValueError], and no identifier is returned. *)
Theorem getRefreshIDs_empty_range (p : Protocol R S) (g : G) :
  randint_contract ->
  Exists (fun bucket => (snd bucket < fst bucket)%N)
         (getLonelyBuckets (router p)) ->
  exists g', getRefreshIDs p g = (Raise ValueError, g').
Proof.
  intros C. unfold getRefreshIDs.
  generalize (getLonelyBuckets (router p)) as buckets.
  intros buckets E. revert g.
  induction E as [bucket rest Hb|bucket rest _ IH]; intro g;
    cbn [refresh_ids].
  - destruct (proj2 (C g (fst bucket) (snd bucket)) Hb) as (g1 & ->).
    now exists g1.
  - destruct (N.le_gt_cases (fst bucket) (snd bucket)) as [Hb|Hb].
    + destruct (proj1 (C g (fst bucket) (snd bucket)) Hb)
        as (x & g1 & -> & _).
      destruct (IH g1) as (g2 & ->). now exists g2.
    + destruct (proj2 (C g (fst bucket) (snd bucket)) Hb) as (g1 & ->).
      now exists g1.
Qed.

End RefreshFacts.

(** * The further properties at work *)

Lemma counter_contract : @randint_contract N Lab.counter.
Proof.
  intros g a b. cbn [randint Lab.counter]. split; intro H.
  - destruct (N.ltb_spec b a) as [L|L]; [lia|].
    exists (a + g mod (b - a + 1))%N, (g + 1)%N.
    split; [reflexivity|].
    assert (M : (g mod (b - a + 1) < b - a + 1)%N) by (apply N.mod_lt; lia).
    revert M. generalize (g mod (b - a + 1))%N. intros m M. lia.
  - apply N.ltb_lt in H. rewrite H. now exists g.
Qed.

(** A rejected DELETE from a new peer still records the peer. *)
Lemma handlers_record_sender_witness :
  result_of (handle (Toy.peer 2) (ReqDelete (Toy.ident 9) "k" (Toy.sign 2)))
            Toy.pointer_state
  = Ok [PStr "False"]
  /\ isNewNode
       (router (exec (handle (Toy.peer 2)
                             (ReqDelete (Toy.ident 9) "k" (Toy.sign 2)))
                     Toy.pointer_state))
       (Toy.peer 2) = false.
Proof.
  split; [reflexivity|].
  exact (handlers_record_sender Toy.pointer_state (Toy.peer 2)
           (ReqDelete (Toy.ident 9) "k" (Toy.sign 2)) flat_router_contract).
Defined.

Lemma known_sender_no_traffic_witness :
  isNewNode (router Toy.replica_state) (Toy.peer 4) = false
  /\ effects (exec (handle (Toy.peer 4) (ReqFindValue (Toy.ident 5)))
                   Toy.replica_state)
     = effects Toy.replica_state.
Proof.
  split; [reflexivity|].
  exact (known_sender_no_traffic Toy.replica_state (Toy.peer 4)
           (ReqFindValue (Toy.ident 5)) flat_router_contract eq_refl).
Defined.

Lemma handlers_replicate_once_witness :
  runs (effects (exec (handle (Toy.peer 2) (ReqFindValue (Toy.ident 5)))
                      Toy.replica_state))
  = 1.
Proof.
  exact (handlers_replicate_once Toy.replica_state (Toy.peer 2)
           (ReqFindValue (Toy.ident 5)) flat_router_contract).
Defined.

Lemma transferKeyValues_empty_storage_witness :
  iterkeys (storage Toy.node0) = []
  /\ transferKeyValues (Toy.peer 2) Toy.node0
     = (Ok [], add_effects [Gathered []] Toy.node0).
Proof.
  split; [reflexivity|].
  exact (transferKeyValues_empty_storage Toy.node0 (Toy.peer 2) eq_refl).
Defined.

Lemma transferKeyValues_no_neighbors_witness :
  result_of (transferKeyValues (Toy.peer 2)) Lab.alone
  = Ok [store_call (Toy.peer 2) (Toy.ident 0) ("a", "x");
        store_call (Toy.peer 2) (Toy.ident 0) ("b", "y");
        store_call (Toy.peer 2) (Toy.ident 9) ("c", "z")].
Proof.
  exact (transferKeyValues_no_neighbors Lab.alone (Toy.peer 2)
           (fun keyword _ => eq_refl)).
Defined.

Lemma no_push_past_closer_neighbor_witness :
  neighbors_of Toy.replica_state (Toy.peer 8) (Toy.ident 5) = [Toy.peer 4]
  /\ keyword_calls Toy.replica_state (Toy.peer 8) (Toy.ident 5) = [].
Proof.
  split; [reflexivity|].
  refine (proj2 (no_push_past_closer_neighbor Toy.replica_state (Toy.peer 8)
                   (Toy.ident 5) (first := Toy.peer 4) (rest := [])
                   eq_refl _)).
  apply N.leb_le. reflexivity.
Defined.

Lemma under_k_ignores_new_peer_witness :
  replicates 20 (Toy.peer 1) (Toy.peer 8) (Node_of (Toy.ident 0)) [Toy.peer 4]
  = replicates 20 (Toy.peer 1) (Toy.peer 2) (Node_of (Toy.ident 0))
               [Toy.peer 4].
Proof.
  apply (under_k_ignores_new_peer (k := 20)). cbn. lia.
Defined.

Lemma full_neighborhood_rule_witness :
  replicates 1 (Toy.peer 1) (Toy.peer 8) (Node_of (Toy.ident 0)) [Toy.peer 4]
  = true
  <-> (distanceTo (Toy.peer 8) (Node_of (Toy.ident 0))
       < distanceTo (Toy.peer 4) (Node_of (Toy.ident 0)))%N
      /\ (distanceTo (Toy.peer 1) (Node_of (Toy.ident 0))
          < distanceTo (Toy.peer 4) (Node_of (Toy.ident 0)))%N.
Proof.
  apply (full_neighborhood_rule (k := 1) (Toy.peer 1) (Toy.peer 8)
           (Node_of (Toy.ident 0)) (first := Toy.peer 4) (rest := [])).
  cbn. lia.
Defined.

Lemma evicted_peer_is_rediscovered_witness :
  isNewNode (router Toy.replica_state) (Toy.peer 4) = false
  /\ runs (effects
             (exec (addToRouter (Toy.peer 4))
                   (exec (handleCallResponse (false, []) (Toy.peer 4))
                         Toy.replica_state)))
     = 1.
Proof.
  split; [reflexivity|].
  exact (proj2 (evicted_peer_is_rediscovered Toy.replica_state (Toy.peer 4)
                  [] flat_router_contract)).
Defined.

Lemma rpc_store_bounds_witness :
  String.length (Toy.ident 9) = 20
  /\ result_of (rpc_store (Toy.peer 2) (Toy.ident 9) "" "") Toy.node0
     = Ok [PStr "True"].
Proof.
  split; [reflexivity|].
  exact (proj1 (proj2 (rpc_store_bounds Toy.node0 (Toy.peer 2)
                         (Toy.ident 9) "" "" eq_refl))
           eq_refl eq_refl).
Defined.

Lemma store_then_find_value_witness :
  result_of (rpc_find_value (Toy.peer 4) (Toy.ident 9))
            (exec (rpc_store (Toy.peer 2) (Toy.ident 9) "k" "v") Toy.node0)
  = Ok [PStr "value"; PTuple "k" "v"].
Proof.
  refine (store_then_find_value Toy.node0 (Toy.peer 2) (Toy.peer 4)
            (keyword := Toy.ident 9) (key := "k") (value := "v")
            (items := [("k", "v")]) _ eq_refl).
  unfold admissible. cbn. lia.
Defined.

Lemma store_then_delete_own_witness :
  Toy.ident 2 = digest (id (Toy.peer 2))
  /\ result_of (rpc_delete (Toy.peer 2) (Toy.ident 2) "k" (Toy.sign 2))
               (exec (rpc_store (Toy.peer 2) (Toy.ident 2) "k" "v") Toy.node0)
     = Ok [PStr "True"].
Proof.
  split; [reflexivity|].
  refine (store_then_delete_own Toy.node0 (sender := Toy.peer 2)
            (keyword := Toy.ident 2) (key := "k") (value := "v")
            (stored := "v") (signature := Toy.sign 2) _ eq_refl eq_refl _).
  - unfold admissible. cbn. lia.
  - exists (Toy.key_of 2), "k". split; reflexivity.
Defined.

Lemma delete_replay_fails_witness :
  result_of (rpc_delete (Toy.peer 2) (Toy.ident 2) "k" (Toy.sign 2))
            Toy.own_state
  = Ok [PStr "True"]
  /\ result_of (rpc_delete (Toy.peer 2) (Toy.ident 2) "k" (Toy.sign 2))
               (exec (rpc_delete (Toy.peer 2) (Toy.ident 2) "k" (Toy.sign 2))
                     Toy.own_state)
     = Ok [PStr "False"].
Proof.
  split; [reflexivity|].
  exact (delete_replay_fails Toy.own_state (Toy.peer 2) (Toy.ident 2) "k"
           (Toy.sign 2) (Toy.peer 2) (Toy.sign 2) eq_refl eq_refl).
Defined.

Lemma getRefreshIDs_in_ranges_witness :
  exists ids g',
    getRefreshIDs Lab.lonely 5%N = (Ok ids, g')
    /\ Forall2 (fun bucket x => (fst bucket <= x <= snd bucket)%N)
               (getLonelyBuckets (router Lab.lonely)) ids.
Proof.
  apply (getRefreshIDs_in_ranges Lab.lonely 5%N counter_contract).
  repeat constructor; cbn; lia.
Defined.

Lemma getRefreshIDs_empty_range_witness :
  exists g',
    getRefreshIDs
      (mkProtocol 20 [(0, 7); (9, 8)]%N ([] : Flat.Store) (Toy.peer 1) [])
      5%N
    = (Raise ValueError, g').
Proof.
  apply (getRefreshIDs_empty_range _ 5%N counter_contract).
  cbn. apply Exists_cons_tl, Exists_cons_hd. cbn. lia.
Defined.

(** A FIND_NODE with an empty key from peer 2 raises; with a 20-byte key it
    is answered. *)
Example find_node_empty_key :
  result_of (handle_strict (Toy.peer 2) (ReqFindNode "")) Toy.replica_state
  = Raise ValueError.
Proof. reflexivity. Qed.

Example find_node_full_key :
  result_of (handle_strict (Toy.peer 2) (ReqFindNode (Toy.ident 0)))
            Toy.replica_state
  = Ok [PStr (Toy.descriptor 4)].
Proof. reflexivity. Qed.
